(** * server.py: the realtime chat session proxy

    A shallow embedding of [server.py] and the properties of its
    [GET /session] endpoint.

    The module has three parts that matter here:
    - [Settings], a pydantic-settings class with the single required field
      [OPENAI_API_KEY], instantiated once at import time ([settings]);
    - the application object with its middleware, static mount and
      templates;
    - the coroutine [realtime_chat_session], which posts one fixed JSON
      payload to the OpenAI realtime sessions endpoint and relays what
      comes back.

    The coroutine is embedded as a term of a small free monad [Prog] whose
    only effect is the awaited [client.post]; exceptions are results.
    Library code (httpx, FastAPI, pydantic-settings, the json module) is not
    part of the repository: the JSON decoder behind [resp.json()] is a
    section variable, and a concrete decoder for the JSON grammar is
    provided to run the model on real bodies. *)

From Stdlib Require Import ZArith String Ascii List Bool Lia.
From stdpp Require Import base option strings gmap list.

Local Open Scope string_scope.
Local Open Scope Z_scope.

#[local] Set Warnings "-register-all".

(* ===================================================================== *)
(** ** JSON values *)
(* ===================================================================== *)

(** What [json.loads] builds: [None], [bool], [int], [float], [str], [list]
    and [dict].  Integers are exact, as Python's are; a number written with
    a fraction or an exponent is kept as its literal, floating point being
    outside the model.  A [dict] keeps its insertion order. *)
Inductive json : Type :=
| JNull
| JBool (b : bool)
| JInt (n : Z)
| JFloat (literal : string)
| JStr (s : string)
| JList (items : list json)
| JDict (members : list (string * json)).

(** [occurs needle hay]: [needle in hay] on Python strings. *)
Fixpoint occurs (needle hay : string) : bool :=
  String.prefix needle hay ||
  match hay with
  | EmptyString => false
  | String _ rest => occurs needle rest
  end.

(** Every piece of text held by a JSON value: dictionary keys, strings and
    number literals. *)
Fixpoint json_texts (j : json) : list string :=
  match j with
  | JNull | JBool _ | JInt _ => []
  | JFloat l => [l]
  | JStr s => [s]
  | JList items => flat_map json_texts items
  | JDict members =>
      flat_map (fun kv => fst kv :: json_texts (snd kv)) members
  end.

(* ===================================================================== *)
(** ** A decoder for JSON text *)
(* ===================================================================== *)

(** A recursive-descent decoder for the JSON grammar as [json.loads] reads
    it: surrounding whitespace, [null], [true], [false], the constants
    [NaN], [Infinity] and [-Infinity] that Python accepts, numbers, strings
    with their escapes, arrays and objects.  A later duplicate key of an
    object replaces the earlier one, as a [dict] does.  It is used to run
    the handler on concrete bodies. *)
Module JsonText.

Definition is_ws (c : ascii) : bool :=
  match c with
  | " "%char | "009"%char | "010"%char | "013"%char => true
  | _ => false
  end.

Fixpoint skip_ws (s : string) : string :=
  match s with
  | String c rest => if is_ws c then skip_ws rest else s
  | EmptyString => s
  end.

Definition digit_val (c : ascii) : option Z :=
  let n := Z.of_nat (nat_of_ascii c) in
  if (48 <=? n) && (n <=? 57) then Some (n - 48) else None.

Definition hex_val (c : ascii) : option Z :=
  let n := Z.of_nat (nat_of_ascii c) in
  if (48 <=? n) && (n <=? 57) then Some (n - 48)
  else if (65 <=? n) && (n <=? 70) then Some (n - 55)
  else if (97 <=? n) && (n <=? 102) then Some (n - 87)
  else None.

(** The longest prefix of decimal digits, and what follows it. *)
Fixpoint span_digits (s : string) : string * string :=
  match s with
  | String c rest =>
      match digit_val c with
      | Some _ => let '(ds, tl) := span_digits rest in (String c ds, tl)
      | None => (EmptyString, s)
      end
  | EmptyString => (EmptyString, EmptyString)
  end.

Fixpoint decimal (acc : Z) (ds : string) : Z :=
  match ds with
  | String c rest =>
      decimal (10 * acc + default 0 (digit_val c)) rest
  | EmptyString => acc
  end.

Definition byte (n : Z) : ascii := ascii_of_nat (Z.to_nat n).

(** UTF-8 bytes of a code point. *)
Definition utf8 (cp : Z) : string :=
  if cp <? 128 then String (byte cp) EmptyString
  else if cp <? 2048 then
    String (byte (192 + cp / 64)) (String (byte (128 + cp mod 64)) EmptyString)
  else if cp <? 65536 then
    String (byte (224 + cp / 4096))
      (String (byte (128 + (cp / 64) mod 64))
         (String (byte (128 + cp mod 64)) EmptyString))
  else
    String (byte (240 + cp / 262144))
      (String (byte (128 + (cp / 4096) mod 64))
         (String (byte (128 + (cp / 64) mod 64))
            (String (byte (128 + cp mod 64)) EmptyString))).

Definition hex4 (s : string) : option (Z * string) :=
  match s with
  | String a (String b (String c (String d rest))) =>
      match hex_val a, hex_val b, hex_val c, hex_val d with
      | Some x, Some y, Some z, Some w =>
          Some (4096 * x + 256 * y + 16 * z + w, rest)
      | _, _, _, _ => None
      end
  | _ => None
  end.

(** The code point of a [\uXXXX] escape, [s] starting after the [u]; a
    high surrogate followed by an escaped low surrogate is one code
    point. *)
Definition unicode_escape (s : string) : option (Z * string) :=
  match hex4 s with
  | Some (hi, rest) =>
      if (55296 <=? hi) && (hi <=? 56319) then
        match rest with
        | String "\"%char (String "u"%char rest') =>
            match hex4 rest' with
            | Some (lo, rest'') =>
                if (56320 <=? lo) && (lo <=? 57343)
                then Some (65536 + (hi - 55296) * 1024 + (lo - 56320), rest'')
                else Some (hi, rest)
            | None => Some (hi, rest)
            end
        | _ => Some (hi, rest)
        end
      else Some (hi, rest)
  | None => None
  end.

(** The body of a string, [s] starting after the opening quote. *)
Fixpoint string_body (fuel : nat) (s : string) : option (string * string) :=
  match fuel with
  | O => None
  | S fuel =>
      match s with
      | EmptyString => None
      | String "034"%char rest => Some (EmptyString, rest)
      | String "\"%char (String e rest) =>
          let simple (c : ascii) :=
            '(body, tl) ← string_body fuel rest; Some (String c body, tl) in
          match e with
          | "034"%char => simple "034"%char
          | "\"%char => simple "\"%char
          | "/"%char => simple "/"%char
          | "b"%char => simple "008"%char
          | "f"%char => simple "012"%char
          | "n"%char => simple "010"%char
          | "r"%char => simple "013"%char
          | "t"%char => simple "009"%char
          | "u"%char =>
              '(cp, rest') ← unicode_escape rest;
              '(body, tl) ← string_body fuel rest';
              Some (utf8 cp +:+ body, tl)
          | _ => None
          end
      | String c rest =>
          if (Z.of_nat (nat_of_ascii c) <? 32) then None
          else '(body, tl) ← string_body fuel rest; Some (String c body, tl)
      end
  end.

(** A number, [s] starting at its first character. *)
Definition number (s : string) : option (json * string) :=
  let '(neg, s1) :=
    match s with
    | String "-"%char rest => (true, rest)
    | _ => (false, s)
    end in
  let '(ip, s2) := span_digits s1 in
  match ip with
  | EmptyString => None
  | String "0"%char (String _ _) => None
  | _ =>
      let '(frac, s3) :=
        match s2 with
        | String "."%char rest =>
            let '(fd, tl) := span_digits rest in
            match fd with
            | EmptyString => (None, s2)
            | _ => (Some ("." +:+ fd), tl)
            end
        | _ => (None, s2)
        end in
      let '(ex, s4) :=
        match s3 with
        | String e rest =>
            if Ascii.eqb e "e"%char || Ascii.eqb e "E"%char then
              let '(sign, rest') :=
                match rest with
                | String "+"%char r => ("+", r)
                | String "-"%char r => ("-", r)
                | _ => (EmptyString, rest)
                end in
              let '(ed, tl) := span_digits rest' in
              match ed with
              | EmptyString => (None, s3)
              | _ => (Some (String e (sign +:+ ed)), tl)
              end
            else (None, s3)
        | _ => (None, s3)
        end in
      match frac, ex with
      | None, None =>
          Some (JInt (if neg then - decimal 0 ip else decimal 0 ip), s4)
      | _, _ =>
          Some (JFloat ((if neg then "-" else EmptyString) +:+ ip
                        +:+ default EmptyString frac +:+ default EmptyString ex), s4)
      end
  end.

(** [d[k] = v] on an insertion-ordered dictionary. *)
Fixpoint dict_set (k : string) (v : json) (d : list (string * json))
  : list (string * json) :=
  match d with
  | [] => [(k, v)]
  | (k', v') :: d' =>
      if String.eqb k k' then (k', v) :: d' else (k', v') :: dict_set k v d'
  end.

Definition strip_prefix (p s : string) : option string :=
  if String.prefix p s
  then Some (String.substring (String.length p)
               (String.length s - String.length p) s)
  else None.

Fixpoint value (fuel : nat) (s : string) : option (json * string) :=
  match fuel with
  | O => None
  | S fuel =>
      match skip_ws s with
      | String "{"%char rest =>
          match skip_ws rest with
          | String "}"%char tl => Some (JDict [], tl)
          | _ => members fuel rest []
          end
      | String "["%char rest =>
          match skip_ws rest with
          | String "]"%char tl => Some (JList [], tl)
          | _ => elements fuel rest []
          end
      | String "034"%char rest =>
          '(str, tl) ← string_body (String.length rest + 1) rest;
          Some (JStr str, tl)
      | s' =>
          match strip_prefix "null" s', strip_prefix "true" s',
                strip_prefix "false" s', strip_prefix "NaN" s',
                strip_prefix "Infinity" s', strip_prefix "-Infinity" s' with
          | Some tl, _, _, _, _, _ => Some (JNull, tl)
          | _, Some tl, _, _, _, _ => Some (JBool true, tl)
          | _, _, Some tl, _, _, _ => Some (JBool false, tl)
          | _, _, _, Some tl, _, _ => Some (JFloat "NaN", tl)
          | _, _, _, _, Some tl, _ => Some (JFloat "Infinity", tl)
          | _, _, _, _, _, Some tl => Some (JFloat "-Infinity", tl)
          | _, _, _, _, _, _ => number s'
          end
      end
  end
with elements (fuel : nat) (s : string) (acc : list json)
  : option (json * string) :=
  match fuel with
  | O => None
  | S fuel =>
      '(v, tl) ← value fuel s;
      match skip_ws tl with
      | String ","%char tl' => elements fuel tl' (acc ++ [v])
      | String "]"%char tl' => Some (JList (acc ++ [v]), tl')
      | _ => None
      end
  end
with members (fuel : nat) (s : string) (acc : list (string * json))
  : option (json * string) :=
  match fuel with
  | O => None
  | S fuel =>
      match skip_ws s with
      | String "034"%char rest =>
          '(k, tl) ← string_body (String.length rest + 1) rest;
          match skip_ws tl with
          | String ":"%char tl' =>
              '(v, tl'') ← value fuel tl';
              match skip_ws tl'' with
              | String ","%char tl3 => members fuel tl3 (dict_set k v acc)
              | String "}"%char tl3 => Some (JDict (dict_set k v acc), tl3)
              | _ => None
              end
          | _ => None
          end
      | _ => None
      end
  end.

(** [json.loads(s)]: one value, then nothing but whitespace.  [None] is
    [JSONDecodeError].  Every step of the descent consumes a character,
    so the length of the text bounds the fuel. *)
Definition loads (s : string) : option json :=
  '(v, tl) ← value (2 * String.length s + 2) s;
  match skip_ws tl with
  | EmptyString => Some v
  | _ => None
  end.

End JsonText.

(* ===================================================================== *)
(** ** Configuration: [Settings] and module start-up *)
(* ===================================================================== *)

(** [class Settings(BaseSettings)]: one field, annotated [str], with no
    default and no validator. *)
Record Settings : Type := { OPENAI_API_KEY : string }.

(** The sources [Settings()] reads: the process environment
    ([os.environ.items()], in order) and, when the file [.env] named by
    [Config.env_file] exists, its assignments in order (a name written
    without a value assigns nothing). *)
Record Environment : Type := {
  os_environ : list (string * string);
  env_file : option (list (string * string))
}.

(** The entries of a settings [ValidationError]. *)
Inductive ErrorDetails : Type :=
| missing (loc : string)
| extra_forbidden (loc : string).

Inductive ValidationError : Type :=
| ValidationErrors (errors : list ErrorDetails).

(** [d[k] = v] and [d.get(k)] on a dictionary kept in insertion order. *)
Fixpoint env_set (k v : string) (d : list (string * string))
  : list (string * string) :=
  match d with
  | [] => [(k, v)]
  | (k', v') :: d' =>
      if String.eqb k k' then (k', v) :: d' else (k', v') :: env_set k v d'
  end.

Fixpoint env_get (k : string) (d : list (string * string)) : option string :=
  match d with
  | [] => None
  | (k', v) :: d' => if String.eqb k k' then Some v else env_get k d'
  end.

(** [str.lower] on ASCII text, to run the loader on concrete hosts. *)
Definition ascii_lower_char (c : ascii) : ascii :=
  let n := Z.of_nat (nat_of_ascii c) in
  if (65 <=? n) && (n <=? 90) then ascii_of_nat (Z.to_nat (n + 32)) else c.

Fixpoint ascii_lower (s : string) : string :=
  match s with
  | EmptyString => EmptyString
  | String c rest => String (ascii_lower_char c) (ascii_lower rest)
  end.

Section Loader.

(** [str.lower], which the settings loader applies to every name: the class
    does not set [case_sensitive], so names are matched whatever their
    capitalisation. *)
Variable str_lower : string → string.

(** [{k.lower(): v for k, v in env_vars.items()}]: of two names that differ
    by case only, the later gives the value. *)
Definition parse_env_vars (items : list (string * string))
  : list (string * string) :=
  fold_left (λ d kv, env_set (str_lower (fst kv)) (snd kv) d) items [].

(** The name under which the field is looked up. *)
Definition field_env_name : string := str_lower "OPENAI_API_KEY".

(** The value the sources give the field: the process environment wins
    over the file.  An empty string is a value. *)
Definition field_value (env : Environment) : option string :=
  match env_get field_env_name (parse_env_vars (os_environ env)) with
  | Some v => Some v
  | None =>
      file ← env_file env; env_get field_env_name (parse_env_vars file)
  end.

(** The assignments of the [.env] file that fill no field and are not empty:
    the file's source hands them on as extra inputs, which the class, whose
    [extra] is [forbid] by default, rejects. *)
Definition dotenv_extras (file : list (string * string)) : list string :=
  map fst
    (List.filter
       (λ kv, negb (String.eqb (snd kv) EmptyString)
              && negb (String.eqb (fst kv) field_env_name))
       (parse_env_vars file)).

(** [Settings()].  The annotation [str] accepts every string; a field with
    no value in any source is [missing], and every extra input of the file
    is [extra_forbidden]. *)
Definition Settings_init (env : Environment) : ValidationError + Settings :=
  let extras :=
    match env_file env with
    | Some file => map extra_forbidden (dotenv_extras file)
    | None => []
    end in
  match field_value env, extras with
  | Some v, [] => inr {| OPENAI_API_KEY := v |}
  | Some _, _ => inl (ValidationErrors extras)
  | None, _ => inl (ValidationErrors (missing "OPENAI_API_KEY" :: extras))
  end.

End Loader.

(** What executing the module needs from its host, the packages it imports
    being installed: the sources of the settings and whether the directory
    ["static"] exists ([StaticFiles(directory="static")] checks it when it
    is built). *)
Record Host : Type := {
  environment : Environment;
  static_isdir : bool
}.

Inductive StartupError : Type :=
| SettingsError (e : ValidationError)
| StaticDirectoryMissing.

(** The module's globals once it has been executed. *)
Record Globals : Type := {
  settings : Settings;
  title : string;
  version : string;
  allow_origins : list string;
  allow_credentials : bool;
  allow_methods : list string;
  allow_headers : list string
}.

(** Executing [server.py] top to bottom: [settings = Settings()] comes
    first, then the application, its CORS middleware and the static mount.
    [inl] means the import raised and there is no application to serve. *)
Definition import_server (str_lower : string → string) (host : Host)
  : StartupError + Globals :=
  match Settings_init str_lower (environment host) with
  | inl e => inl (SettingsError e)
  | inr cfg =>
      if static_isdir host then
        inr {| settings := cfg;
               title := "Realtime Chat Session API";
               version := "0.1.0";
               allow_origins := ["*"];
               allow_credentials := true;
               allow_methods := ["*"];
               allow_headers := ["*"] |}
      else inl StaticDirectoryMissing
  end.

Definition serving (str_lower : string → string) (host : Host) : bool :=
  match import_server str_lower host with
  | inr _ => true
  | inl _ => false
  end.

(* ===================================================================== *)
(** ** The HTTP client and the coroutine monad *)
(* ===================================================================== *)

(** An [httpx.Response], as far as the handler looks at it.  The body is
    text; [resp.text] is the body. *)
Record Response : Type := {
  status_code : Z;
  content : string
}.

Definition text (resp : Response) : string := content resp.

(** [httpx.AsyncClient(timeout=...)], in seconds.  The [async with] block
    opens the client before the call and closes it after, whether the call
    returned or raised; neither sends a request. *)
Record AsyncClient : Type := { timeout : Z }.

(** One awaited [client.post(url, headers=..., json=...)]: the timeout of
    the client it is made through and the arguments it is given.  The
    headers are those of the [headers=] argument; the ones the client adds
    of its own when it builds the request are not part of it. *)
Record Call : Type := {
  call_timeout : Z;
  call_url : string;
  call_headers : gmap string string;
  call_json : gmap string string
}.

(** The ways the awaited call raises instead of returning a response. *)
Inductive TransportError : Type :=
| TimeoutException
| NetworkError
| ProtocolError.

Inductive Exception : Type :=
| HTTPException (status_code : Z) (detail : string)
| JSONDecodeError
| TransportFailure (e : TransportError).

(** A coroutine returning [R]: it returns, raises, or awaits a [POST] and
    goes on with the response.  There is no [try] in the source, so there
    is no construct that catches. *)
Inductive Prog (R : Type) : Type :=
| Return (r : R)
| Raise (e : Exception)
| Await (c : Call) (k : Response → Prog R).

Arguments Return {R} r.
Arguments Raise {R} e.
Arguments Await {R} c k.

Fixpoint Prog_bind {A B : Type} (f : A → Prog B) (p : Prog A) : Prog B :=
  match p with
  | Return a => f a
  | Raise e => Raise e
  | Await c k => Await c (λ resp, Prog_bind f (k resp))
  end.

#[export] Instance Prog_ret : MRet Prog := @Return.
#[export] Instance Prog_mbind : MBind Prog := @Prog_bind.

(** [await client.post(url, headers=headers, json=payload)]. *)
Definition post (client : AsyncClient) (url : string)
    (headers json : gmap string string) : Prog Response :=
  Await {| call_timeout := timeout client;
           call_url := url;
           call_headers := headers;
           call_json := json |} Return.

(** What one awaited call meets. *)
Inductive Outcome : Type :=
| Responded (resp : Response)
| Failed (e : TransportError).

(** The network and the upstream behind it, as seen by one invocation. *)
Definition Upstream : Type := Call → Outcome.

Inductive Result (R : Type) : Type :=
| Returned (r : R)
| Raised (e : Exception).

Arguments Returned {R} r.
Arguments Raised {R} e.

Definition is_http_exception {R : Type} (r : Result R) : bool :=
  match r with
  | Raised (HTTPException _ _) => true
  | _ => false
  end.

(** Running a coroutine to completion against an upstream: its result and
    the calls that left the process, in order.  An exception raised by the
    awaited call ends the coroutine there. *)
Fixpoint exec {R : Type} (up : Upstream) (p : Prog R) : Result R * list Call :=
  match p with
  | Return r => (Returned r, [])
  | Raise e => (Raised e, [])
  | Await c k =>
      match up c with
      | Responded resp =>
          let '(r, log) := exec up (k resp) in (r, c :: log)
      | Failed e => (Raised (TransportFailure e), [c])
      end
  end.

(** The number of points at which a coroutine may suspend on the network,
    along the path the given responses select. *)
Fixpoint awaits {R : Type} (resp : Response) (p : Prog R) : nat :=
  match p with
  | Return _ | Raise _ => O
  | Await _ k => S (awaits resp (k resp))
  end.

(* ===================================================================== *)
(** ** The [/session] endpoint *)
(* ===================================================================== *)

(** What a caller can put in a request. *)
Record Request : Type := {
  query_params : list (string * string);
  request_headers : list (string * string);
  request_body : string
}.

(** What the caller gets back. *)
Inductive ResponseBody : Type :=
| JSONBody (j : json)
| TextBody (s : string).

Record HttpResponse : Type := {
  status : Z;
  body : ResponseBody
}.

Definition body_texts (b : ResponseBody) : list string :=
  match b with
  | JSONBody j => json_texts j
  | TextBody s => [s]
  end.

(** Whether a string occurs in the body of a response. *)
Definition appears_in (s : string) (r : HttpResponse) : bool :=
  existsb (occurs s) (body_texts (body r)).

(** Modelled from the spec: the hosting framework's part, which is not in
    the repository.  A returned value is sent as a 200 JSON response; an
    [HTTPException] is sent with its own status code and its detail as the
    error detail; any other exception is a generic server error.  How a
    body is rendered as bytes is not modelled. *)
Definition respond (r : Result json) : HttpResponse :=
  match r with
  | Returned v => {| status := 200; body := JSONBody v |}
  | Raised (HTTPException s d) =>
      {| status := s; body := JSONBody (JDict [("detail", JStr d)]) |}
  | Raised _ => {| status := 500; body := TextBody "Internal Server Error" |}
  end.

Section Session.

(** The decoder behind [resp.json()]; [None] is its [JSONDecodeError]. *)
Variable json_loads : string → option json.

Definition Response_json (resp : Response) : Prog json :=
  match json_loads (content resp) with
  | Some v => Return v
  | None => Raise JSONDecodeError
  end.

(** [async def realtime_chat_session(cfg)]. *)
Definition realtime_chat_session (cfg : Settings) : Prog json :=
  let url := "https://api.openai.com/v1/realtime/sessions" in
  let headers : gmap string string :=
    {[ "Authorization" := "Bearer " +:+ OPENAI_API_KEY cfg;
       "Content-Type" := "application/json" ]} in
  let payload : gmap string string :=
    {[ "model" := "gpt-4o-realtime-preview-2025-06-03";
       "voice" := "verse" ]} in
  resp ← post {| timeout := 30 |} url headers payload;
  if bool_decide (status_code resp ≠ 200) then
    Raise (HTTPException (status_code resp) (text resp))
  else
    Response_json resp.

(** [@app.get("/session")] with [cfg = Depends(lambda: settings)]: the
    route declares no parameter fed from the request, and the dependency
    reads the module's [settings]. *)
Definition get_session (m : Globals) (request : Request) : Prog json :=
  realtime_chat_session ((λ _ : unit, settings m) ()).

(** One request to [/session] served against an upstream. *)
Definition serve_session (m : Globals) (up : Upstream) (request : Request)
  : HttpResponse * list Call :=
  let '(r, log) := exec up (get_session m request) in (respond r, log).

(** Requests served one after the other, each meeting the upstream as it
    is when the request arrives: the responses, and every call that left
    the process. *)
Fixpoint serve (m : Globals) (arrivals : list (Request * Upstream))
  : list HttpResponse * list Call :=
  match arrivals with
  | [] => ([], [])
  | (request, up) :: rest =>
      let '(r, log) := serve_session m up request in
      let '(rs, logs) := serve m rest in
      (r :: rs, (log ++ logs)%list)
  end.

End Session.

(* ===================================================================== *)
(** ** Concrete hosts and upstreams *)
(* ===================================================================== *)

Module Examples.

Definition quoted (s : string) : string :=
  String "034"%char (s +:+ String "034"%char EmptyString).

(** [{"id": "sess_1", "expires_at": 123}] *)
Definition session_body : string :=
  "{" +:+ quoted "id" +:+ ": " +:+ quoted "sess_1" +:+ ", "
      +:+ quoted "expires_at" +:+ ": 123}".

(** [{"error": "invalid_api_key"}] *)
Definition invalid_key_body : string :=
  "{" +:+ quoted "error" +:+ ": " +:+ quoted "invalid_api_key" +:+ "}".

Definition globals_with (key : string) : Globals :=
  {| settings := {| OPENAI_API_KEY := key |};
     title := "Realtime Chat Session API";
     version := "0.1.0";
     allow_origins := ["*"];
     allow_credentials := true;
     allow_methods := ["*"];
     allow_headers := ["*"] |}.

Definition plain_request : Request :=
  {| query_params := []; request_headers := []; request_body := EmptyString |}.

Definition loud_request : Request :=
  {| query_params := [("model", "gpt-5"); ("voice", "alloy")];
     request_headers := [("Authorization", "Bearer caller-token")];
     request_body := "{" +:+ quoted "voice" +:+ ": " +:+ quoted "alloy" +:+ "}" |}.

(** An upstream that always does the same thing. *)
Definition always (o : Outcome) : Upstream := λ _, o.

(** An upstream that knows one key: it creates a session for a call that
    carries it and answers 401 to any other. *)
Definition keyed_upstream (key : string) : Upstream := λ c,
  if bool_decide (call_headers c !! "Authorization" = Some ("Bearer " +:+ key))
  then Responded {| status_code := 200; content := session_body |}
  else Responded {| status_code := 401; content := invalid_key_body |}.

(** An upstream that needs [latency] seconds to answer: a client that
    waits no longer than that gives up with a timeout. *)
Definition slow_upstream (latency : Z) : Upstream := λ c,
  if call_timeout c <? latency then Failed TimeoutException
  else Responded {| status_code := 200; content := session_body |}.

(** An upstream that names the key it was given when it rejects it. *)
Definition echoing_upstream : Upstream := λ c,
  Responded {| status_code := 401;
               content := "Incorrect API key provided: "
                          +:+ default EmptyString (call_headers c !! "Authorization") |}.

End Examples.

(* ===================================================================== *)
(** ** One invocation, step by step *)
(* ===================================================================== *)

(** The call that lines 48 to 59 of [server.py] build for a configuration. *)
Definition session_call (cfg : Settings) : Call :=
  {| call_timeout := 30;
     call_url := "https://api.openai.com/v1/realtime/sessions";
     call_headers :=
       {[ "Authorization" := "Bearer " +:+ OPENAI_API_KEY cfg;
          "Content-Type" := "application/json" ]};
     call_json :=
       {[ "model" := "gpt-4o-realtime-preview-2025-06-03";
          "voice" := "verse" ]} |}.

Section Steps.

Variable json_loads : string → option json.
Variables (cfg : Settings) (up : Upstream).

Lemma session_shape :
  realtime_chat_session json_loads cfg =
  Await (session_call cfg)
    (λ resp,
       if bool_decide (status_code resp ≠ 200)
       then Raise (HTTPException (status_code resp) (text resp))
       else Response_json json_loads resp).
Proof. reflexivity. Qed.

Lemma exec_failed e :
  up (session_call cfg) = Failed e →
  exec up (realtime_chat_session json_loads cfg)
  = (Raised (TransportFailure e), [session_call cfg]).
Proof. intros Hup. rewrite session_shape. cbn [exec]. by rewrite Hup. Qed.

Lemma exec_not_200 resp :
  up (session_call cfg) = Responded resp →
  status_code resp ≠ 200 →
  exec up (realtime_chat_session json_loads cfg)
  = (Raised (HTTPException (status_code resp) (content resp)),
     [session_call cfg]).
Proof.
  intros Hup Hs. rewrite session_shape. cbn [exec]. rewrite Hup.
  by rewrite bool_decide_eq_true_2.
Qed.

Lemma exec_200 resp :
  up (session_call cfg) = Responded resp →
  status_code resp = 200 →
  exec up (realtime_chat_session json_loads cfg)
  = (match json_loads (content resp) with
     | Some v => Returned v
     | None => Raised JSONDecodeError
     end, [session_call cfg]).
Proof.
  intros Hup Hs. rewrite session_shape. cbn [exec]. rewrite Hup.
  rewrite bool_decide_eq_false_2 by (intros Hne; by apply Hne).
  unfold Response_json. by destruct (json_loads (content resp)).
Qed.

(** Whatever the upstream does, exactly the one call leaves. *)
Lemma exec_log :
  snd (exec up (realtime_chat_session json_loads cfg)) = [session_call cfg].
Proof.
  destruct (up (session_call cfg)) as [resp|e] eqn:Hup.
  - destruct (decide (status_code resp = 200)) as [Hs|Hs].
    + by rewrite (exec_200 resp Hup Hs).
    + by rewrite (exec_not_200 resp Hup Hs).
  - by rewrite (exec_failed e Hup).
Qed.

End Steps.

Lemma serve_session_log json_loads m up request :
  snd (serve_session json_loads m up request) = [session_call (settings m)].
Proof.
  unfold serve_session, get_session.
  pose proof (exec_log json_loads (settings m) up) as Hlog.
  destruct (exec up (realtime_chat_session json_loads (settings m))) as [r log].
  exact Hlog.
Qed.

Lemma serve_session_response json_loads m up request :
  fst (serve_session json_loads m up request)
  = respond (fst (exec up (get_session json_loads m request))).
Proof.
  unfold serve_session.
  by destruct (exec up (get_session json_loads m request)).
Qed.

(** The response depends on the upstream's answer and on nothing else. *)
Lemma serve_session_same_answer json_loads m m' up up' request request' :
  up (session_call (settings m)) = up' (session_call (settings m')) →
  fst (serve_session json_loads m up request)
  = fst (serve_session json_loads m' up' request').
Proof.
  intros Hsame.
  rewrite !serve_session_response. f_equal. unfold get_session.
  destruct (up' (session_call (settings m'))) as [resp|e] eqn:Hup'.
  - destruct (decide (status_code resp = 200)) as [Hs|Hs].
    + by rewrite (exec_200 json_loads _ _ _ Hsame Hs),
                 (exec_200 json_loads _ _ _ Hup' Hs).
    + by rewrite (exec_not_200 json_loads _ _ _ Hsame Hs),
                 (exec_not_200 json_loads _ _ _ Hup' Hs).
  - by rewrite (exec_failed json_loads _ _ _ Hsame),
               (exec_failed json_loads _ _ _ Hup').
Qed.

Section Serving.

Variable json_loads : string → option json.
Variable m : Globals.

Lemma serve_responses (arrivals : list (Request * Upstream)) :
  fst (serve json_loads m arrivals)
  = map (λ a, fst (serve_session json_loads m a.2 a.1)) arrivals.
Proof.
  induction arrivals as [|[request up] rest IH]; [done|].
  cbn [serve map fst snd].
  destruct (serve_session json_loads m up request) as [r log].
  destruct (serve json_loads m rest) as [rs logs].
  cbn in *. by rewrite IH.
Qed.

Lemma serve_calls (arrivals : list (Request * Upstream)) :
  snd (serve json_loads m arrivals)
  = replicate (length arrivals) (session_call (settings m)).
Proof.
  induction arrivals as [|[request up] rest IH]; [done|].
  cbn [serve length replicate].
  pose proof (serve_session_log json_loads m up request) as Hlog.
  destruct (serve_session json_loads m up request) as [r log].
  destruct (serve json_loads m rest) as [rs logs].
  cbn in *. by rewrite Hlog, IH.
Qed.

End Serving.

(* ===================================================================== *)
(** ** Relaying the upstream's answer *)
(* ===================================================================== *)

(** C1, as stated, fails: an upstream that answers 200 with a body that is
    not JSON (here an HTML page) does not get a 200 response relayed; the
    handler raises [JSONDecodeError] and the caller is sent a 500. *)
Lemma relay_200_html_body_is_500 :
  let up := Examples.always
              (Responded {| status_code := 200;
                            content := "<html>Service Unavailable</html>" |}) in
  exec up (get_session JsonText.loads (Examples.globals_with "sk-test")
             Examples.plain_request)
  = (Raised JSONDecodeError, [session_call {| OPENAI_API_KEY := "sk-test" |}])
  ∧ fst (serve_session JsonText.loads (Examples.globals_with "sk-test") up
           Examples.plain_request)
    = {| status := 500; body := TextBody "Internal Server Error" |}.
Proof. split; vm_compute; reflexivity. Qed.

(** C1, amended: for every request to [/session], when the upstream answers
    200 with a body [B] that decodes as JSON to [j], the handler returns [j]
    unchanged and the endpoint responds 200 with the JSON content [j]. *)
Theorem relay_200_json_body json_loads m up request B j :
  up (session_call (settings m))
    = Responded {| status_code := 200; content := B |} →
  json_loads B = Some j →
  fst (exec up (get_session json_loads m request)) = Returned j
  ∧ fst (serve_session json_loads m up request)
    = {| status := 200; body := JSONBody j |}.
Proof.
  intros Hup Hj.
  assert (fst (exec up (get_session json_loads m request)) = Returned j) as He.
  { unfold get_session.
    rewrite (exec_200 json_loads _ _ _ Hup eq_refl). cbn. by rewrite Hj. }
  split; [exact He|]. by rewrite serve_session_response, He.
Qed.

Lemma relay_200_json_body_witness :
  fst (exec (Examples.keyed_upstream "sk-test")
         (get_session JsonText.loads (Examples.globals_with "sk-test")
            Examples.plain_request))
    = Returned (JDict [("id", JStr "sess_1"); ("expires_at", JInt 123)])
  ∧ fst (serve_session JsonText.loads (Examples.globals_with "sk-test")
           (Examples.keyed_upstream "sk-test") Examples.plain_request)
    = {| status := 200;
         body := JSONBody (JDict [("id", JStr "sess_1");
                                  ("expires_at", JInt 123)]) |}.
Proof.
  apply (relay_200_json_body JsonText.loads (Examples.globals_with "sk-test")
           (Examples.keyed_upstream "sk-test") Examples.plain_request
           Examples.session_body).
  - vm_compute. reflexivity.
  - vm_compute. reflexivity.
Defined.

(** C2: for every request to [/session], when the upstream answers a status
    [S] other than 200 with body text [T], the handler raises
    [HTTPException(status_code=S, detail=T)], and the caller's response has
    status [S]. *)
Theorem non_200_raises_http_exception json_loads m up request S T :
  S ≠ 200 →
  up (session_call (settings m))
    = Responded {| status_code := S; content := T |} →
  fst (exec up (get_session json_loads m request))
    = Raised (HTTPException S T)
  ∧ status (fst (serve_session json_loads m up request)) = S.
Proof.
  intros HS Hup.
  assert (fst (exec up (get_session json_loads m request))
          = Raised (HTTPException S T)) as He.
  { unfold get_session. by rewrite (exec_not_200 json_loads _ _ _ Hup HS). }
  split; [exact He|]. by rewrite serve_session_response, He.
Qed.

Lemma non_200_raises_http_exception_witness :
  fst (exec (Examples.keyed_upstream "sk-test")
         (get_session JsonText.loads (Examples.globals_with "sk-stale")
            Examples.plain_request))
    = Raised (HTTPException 401 Examples.invalid_key_body)
  ∧ status (fst (serve_session JsonText.loads
                   (Examples.globals_with "sk-stale")
                   (Examples.keyed_upstream "sk-test")
                   Examples.plain_request)) = 401.
Proof.
  apply (non_200_raises_http_exception JsonText.loads
           (Examples.globals_with "sk-stale")
           (Examples.keyed_upstream "sk-test") Examples.plain_request).
  - lia.
  - vm_compute. reflexivity.
Defined.

(** C3: every invocation of [/session], whatever the caller sent and
    whatever the configuration and the upstream are, sends exactly one
    request, whose JSON body is the literal
    [{"model": "gpt-4o-realtime-preview-2025-06-03", "voice": "verse"}]. *)
Theorem outbound_payload_fixed json_loads m up request :
  ∃ c, snd (serve_session json_loads m up request) = [c]
       ∧ call_json c
         = {[ "model" := "gpt-4o-realtime-preview-2025-06-03";
              "voice" := "verse" ]}
       ∧ call_json c !! "model" = Some "gpt-4o-realtime-preview-2025-06-03"
       ∧ call_json c !! "voice" = Some "verse"
       ∧ dom (call_json c) = ({[ "model"; "voice" ]} : gset string).
Proof.
  exists (session_call (settings m)).
  split; [apply serve_session_log|].
  split; [reflexivity|].
  split; [by vm_compute|].
  split; [by vm_compute|].
  cbn [session_call call_json]. rewrite dom_insert_L, dom_singleton_L. set_solver.
Qed.

(* ===================================================================== *)
(** ** The credential *)
(* ===================================================================== *)

(** C4, as stated, fails: an upstream that names the key it rejects gets its
    body relayed as the error detail, so the credential ["sk-test"] occurs
    in the body of the response the caller receives. *)
Lemma credential_echoed_in_error_detail :
  fst (serve_session JsonText.loads (Examples.globals_with "sk-test")
         Examples.echoing_upstream Examples.plain_request)
  = {| status := 401;
       body := JSONBody
                 (JDict [("detail",
                          JStr "Incorrect API key provided: Bearer sk-test")]) |}
  ∧ appears_in "sk-test"
      (fst (serve_session JsonText.loads (Examples.globals_with "sk-test")
              Examples.echoing_upstream Examples.plain_request))
    = true.
Proof. split; vm_compute; reflexivity. Qed.

(** C4, amended: every invocation sends its one request with the
    [Authorization] header equal to ["Bearer "] followed by the configured
    credential, and the handler itself never copies the credential into a
    response: the response is determined by the upstream's answer alone, so
    two invocations whose upstreams answer alike send the caller the same
    response whatever their credentials are. *)
Theorem credential_only_in_authorization json_loads m up request :
  (∃ c, snd (serve_session json_loads m up request) = [c]
        ∧ call_headers c !! "Authorization"
          = Some ("Bearer " +:+ OPENAI_API_KEY (settings m)))
  ∧ (∀ m' up' request',
       up (session_call (settings m)) = up' (session_call (settings m')) →
       fst (serve_session json_loads m up request)
       = fst (serve_session json_loads m' up' request')).
Proof.
  split.
  - exists (session_call (settings m)). split; [apply serve_session_log|].
    cbn [session_call call_headers]. apply lookup_insert_eq.
  - intros m' up' request' Hsame. by apply serve_session_same_answer.
Qed.

Lemma credential_only_in_authorization_witness :
  fst (serve_session JsonText.loads (Examples.globals_with "sk-test")
         (Examples.keyed_upstream "sk-test") Examples.plain_request)
  = fst (serve_session JsonText.loads (Examples.globals_with "sk-other")
           (Examples.keyed_upstream "sk-other") Examples.loud_request).
Proof.
  apply (proj2 (credential_only_in_authorization JsonText.loads
                  (Examples.globals_with "sk-test")
                  (Examples.keyed_upstream "sk-test") Examples.plain_request)
           (Examples.globals_with "sk-other")
           (Examples.keyed_upstream "sk-other") Examples.loud_request).
  vm_compute. reflexivity.
Defined.

(* ===================================================================== *)
(** ** Start-up *)
(* ===================================================================== *)

Lemma env_get_set_ne k k' v d :
  k ≠ k' → env_get k (env_set k' v d) = env_get k d.
Proof.
  intros Hne. induction d as [|[k0 v0] d IH]; cbn.
  - by rewrite (proj2 (String.eqb_neq k k')).
  - destruct (String.eqb k' k0) eqn:Hk; cbn; [|by rewrite IH].
    apply String.eqb_eq in Hk as ->.
    by rewrite (proj2 (String.eqb_neq k k0)).
Qed.

Section LoaderFacts.

Variable str_lower : string → string.

(** A name that no variable lower-cases to is not in the loader's view. *)
Lemma parse_env_vars_absent name items :
  (∀ k v, (k, v) ∈ items → str_lower k ≠ name) →
  env_get name (parse_env_vars str_lower items) = None.
Proof.
  unfold parse_env_vars.
  assert (∀ acc, env_get name acc = None →
                 (∀ k v, (k, v) ∈ items → str_lower k ≠ name) →
                 env_get name
                   (fold_left (λ d kv, env_set (str_lower (fst kv)) (snd kv) d)
                      items acc) = None) as Hgen.
  { induction items as [|[k v] items IH]; intros acc Hacc Habs; [done|].
    cbn [fold_left fst snd]. apply IH.
    - rewrite env_get_set_ne; [done|].
      intros Heq. by apply (Habs k v (list_elem_of_here _ _)).
    - intros k' v' Hin. apply (Habs k' v'). by apply list_elem_of_further. }
  intros Habs. by apply Hgen.
Qed.

Lemma field_value_absent env :
  (∀ k v, (k, v) ∈ os_environ env →
          str_lower k ≠ str_lower "OPENAI_API_KEY") →
  (∀ file k v, env_file env = Some file → (k, v) ∈ file →
               str_lower k ≠ str_lower "OPENAI_API_KEY") →
  field_value str_lower env = None.
Proof.
  intros Henv Hfile. unfold field_value, field_env_name.
  rewrite (parse_env_vars_absent _ _ Henv).
  destruct (env_file env) as [file|]; [|done]. cbn.
  apply parse_env_vars_absent. intros k v. by apply Hfile.
Qed.

End LoaderFacts.

(** The loader on three hosts: a key written in lower case is the key; a
    stray variable in [.env] is refused although the key is given; and of
    the environment and the file, the environment gives the value. *)
Lemma loader_on_concrete_hosts :
  Settings_init ascii_lower
    {| os_environ := [("PATH", "/usr/bin"); ("openai_api_key", "sk-lower")];
       env_file := None |}
  = inr {| OPENAI_API_KEY := "sk-lower" |}
  ∧ Settings_init ascii_lower
      {| os_environ := [("OPENAI_API_KEY", "sk-env")];
         env_file := Some [("OPENAI_ORG", "org-1")] |}
    = inl (ValidationErrors [extra_forbidden "openai_org"])
  ∧ Settings_init ascii_lower
      {| os_environ := [("OPENAI_API_KEY", "sk-env")];
         env_file := Some [("OPENAI_API_KEY", "sk-file")] |}
    = inr {| OPENAI_API_KEY := "sk-env" |}.
Proof. repeat split; vm_compute; reflexivity. Qed.

(** C5, as stated, fails: with [OPENAI_API_KEY] set to the empty string the
    import succeeds; the configuration holds the empty credential and the
    application is served. *)
Lemma empty_credential_starts :
  let host :=
    {| environment :=
         {| os_environ := [("OPENAI_API_KEY", EmptyString)];
            env_file := None |};
       static_isdir := true |} in
  Settings_init ascii_lower (environment host)
    = inr {| OPENAI_API_KEY := EmptyString |}
  ∧ import_server ascii_lower host = inr (Examples.globals_with EmptyString)
  ∧ serving ascii_lower host = true.
Proof. repeat split; vm_compute; reflexivity. Qed.

(** C5, amended: start-up fails (executing the module raises the settings'
    validation error, with [OPENAI_API_KEY] reported missing, so nothing is
    ever served) whenever [OPENAI_API_KEY] is absent, that is, whenever no
    variable of the process environment and none of the [.env] file bears
    that name under any capitalisation. *)
Theorem startup_fails_without_credential str_lower host :
  (∀ k v, (k, v) ∈ os_environ (environment host) →
          str_lower k ≠ str_lower "OPENAI_API_KEY") →
  (∀ file k v, env_file (environment host) = Some file → (k, v) ∈ file →
               str_lower k ≠ str_lower "OPENAI_API_KEY") →
  ∃ errors,
    import_server str_lower host
      = inl (SettingsError (ValidationErrors errors))
    ∧ missing "OPENAI_API_KEY" ∈ errors
    ∧ serving str_lower host = false.
Proof.
  intros Henv Hfile.
  pose proof (field_value_absent str_lower _ Henv Hfile) as Hnone.
  unfold serving, import_server, Settings_init. rewrite Hnone.
  eexists. split; [reflexivity|]. split; [left|done].
Qed.

Lemma startup_fails_without_credential_witness :
  ∃ errors,
    import_server ascii_lower
      {| environment :=
           {| os_environ := [("PATH", "/usr/bin"); ("HOME", "/root")];
              env_file := Some [("OPENAI_ORG", "org-1")] |};
         static_isdir := true |}
      = inl (SettingsError (ValidationErrors errors))
    ∧ missing "OPENAI_API_KEY" ∈ errors
    ∧ serving ascii_lower
        {| environment :=
             {| os_environ := [("PATH", "/usr/bin"); ("HOME", "/root")];
                env_file := Some [("OPENAI_ORG", "org-1")] |};
           static_isdir := true |}
      = false.
Proof.
  apply (startup_fails_without_credential ascii_lower
           {| environment :=
                {| os_environ := [("PATH", "/usr/bin"); ("HOME", "/root")];
                   env_file := Some [("OPENAI_ORG", "org-1")] |};
              static_isdir := true |}).
  - intros k v Hin. cbn in Hin.
    apply elem_of_cons in Hin as [Hin|Hin];
      [injection Hin as -> ->; vm_compute; discriminate|].
    apply elem_of_cons in Hin as [Hin|Hin];
      [injection Hin as -> ->; vm_compute; discriminate|].
    by apply elem_of_nil in Hin.
  - intros file k v Hfile Hin. cbn in Hfile. injection Hfile as <-.
    apply elem_of_cons in Hin as [Hin|Hin];
      [injection Hin as -> ->; vm_compute; discriminate|].
    by apply elem_of_nil in Hin.
Defined.

(* ===================================================================== *)
(** ** Failures of the call itself *)
(* ===================================================================== *)

(** C6: every invocation issues its single upstream call through a client
    built with a 30 second timeout; when the client reports that the
    timeout was exceeded the invocation ends, with that timeout error as
    its failure and a server error for the caller; and the awaited call is
    the handler's only suspension point, whatever the upstream answers. *)
Theorem upstream_call_timeout_30 json_loads m up request :
  (∃ c, snd (serve_session json_loads m up request) = [c]
        ∧ call_timeout c = 30)
  ∧ (∀ resp, awaits resp (get_session json_loads m request) = 1%nat)
  ∧ (up (session_call (settings m)) = Failed TimeoutException →
     exec up (get_session json_loads m request)
       = (Raised (TransportFailure TimeoutException),
          [session_call (settings m)])
     ∧ status (fst (serve_session json_loads m up request)) = 500).
Proof.
  split; [|split].
  - exists (session_call (settings m)). split; [apply serve_session_log|done].
  - intros resp. unfold get_session. rewrite session_shape. cbn.
    case_bool_decide; [done|].
    unfold Response_json. by destruct (json_loads (content resp)).
  - intros Hup.
    assert (exec up (get_session json_loads m request)
            = (Raised (TransportFailure TimeoutException),
               [session_call (settings m)])) as He.
    { unfold get_session. by rewrite (exec_failed json_loads _ _ _ Hup). }
    split; [exact He|]. by rewrite serve_session_response, He.
Qed.

Lemma upstream_call_timeout_30_witness :
  exec (Examples.slow_upstream 45)
    (get_session JsonText.loads (Examples.globals_with "sk-test")
       Examples.plain_request)
  = (Raised (TransportFailure TimeoutException),
     [session_call {| OPENAI_API_KEY := "sk-test" |}])
  ∧ status (fst (serve_session JsonText.loads
                   (Examples.globals_with "sk-test")
                   (Examples.slow_upstream 45)
                   Examples.plain_request)) = 500.
Proof.
  apply (proj2 (proj2 (upstream_call_timeout_30 JsonText.loads
                         (Examples.globals_with "sk-test")
                         (Examples.slow_upstream 45)
                         Examples.plain_request))).
  vm_compute. reflexivity.
Defined.

(** C7: when the awaited call itself fails (a timeout or a connection
    error), the handler does not catch it: the invocation ends with that
    very exception, which is not an [HTTPException] carrying an upstream
    status, and the caller receives the framework's generic 500. *)
Theorem transport_failure_propagates json_loads m up request e :
  up (session_call (settings m)) = Failed e →
  fst (exec up (get_session json_loads m request))
    = Raised (TransportFailure e)
  ∧ is_http_exception (fst (exec up (get_session json_loads m request)))
    = false
  ∧ fst (serve_session json_loads m up request)
    = {| status := 500; body := TextBody "Internal Server Error" |}
  ∧ 500 ≤ status (fst (serve_session json_loads m up request)) < 600.
Proof.
  intros Hup.
  assert (fst (exec up (get_session json_loads m request))
          = Raised (TransportFailure e)) as He.
  { unfold get_session. by rewrite (exec_failed json_loads _ _ _ Hup). }
  rewrite serve_session_response, He. cbn. repeat split; lia.
Qed.

Lemma transport_failure_propagates_witness :
  fst (exec (Examples.always (Failed NetworkError))
         (get_session JsonText.loads (Examples.globals_with "sk-test")
            Examples.plain_request))
    = Raised (TransportFailure NetworkError)
  ∧ is_http_exception
      (fst (exec (Examples.always (Failed NetworkError))
              (get_session JsonText.loads (Examples.globals_with "sk-test")
                 Examples.plain_request)))
    = false
  ∧ fst (serve_session JsonText.loads (Examples.globals_with "sk-test")
           (Examples.always (Failed NetworkError)) Examples.plain_request)
    = {| status := 500; body := TextBody "Internal Server Error" |}
  ∧ 500 ≤ status (fst (serve_session JsonText.loads
                         (Examples.globals_with "sk-test")
                         (Examples.always (Failed NetworkError))
                         Examples.plain_request)) < 600.
Proof.
  apply (transport_failure_propagates JsonText.loads
           (Examples.globals_with "sk-test")
           (Examples.always (Failed NetworkError)) Examples.plain_request
           NetworkError).
  reflexivity.
Defined.

(** C10: when the upstream answers 200 with a body that does not decode as
    JSON, [resp.json()] raises and nothing catches it: the invocation ends
    with [JSONDecodeError], and the caller receives the framework's generic
    500 instead of the upstream's body. *)
Theorem non_json_200_raises json_loads m up request B :
  up (session_call (settings m))
    = Responded {| status_code := 200; content := B |} →
  json_loads B = None →
  fst (exec up (get_session json_loads m request)) = Raised JSONDecodeError
  ∧ fst (serve_session json_loads m up request)
    = {| status := 500; body := TextBody "Internal Server Error" |}.
Proof.
  intros Hup HB.
  assert (fst (exec up (get_session json_loads m request))
          = Raised JSONDecodeError) as He.
  { unfold get_session.
    rewrite (exec_200 json_loads _ _ _ Hup eq_refl). cbn. by rewrite HB. }
  split; [exact He|]. by rewrite serve_session_response, He.
Qed.

Lemma non_json_200_raises_witness :
  fst (exec (Examples.always
               (Responded {| status_code := 200;
                             content := "session created" |}))
         (get_session JsonText.loads (Examples.globals_with "sk-test")
            Examples.plain_request))
    = Raised JSONDecodeError
  ∧ fst (serve_session JsonText.loads (Examples.globals_with "sk-test")
           (Examples.always
              (Responded {| status_code := 200;
                            content := "session created" |}))
           Examples.plain_request)
    = {| status := 500; body := TextBody "Internal Server Error" |}.
Proof.
  apply (non_json_200_raises JsonText.loads (Examples.globals_with "sk-test")
           (Examples.always
              (Responded {| status_code := 200;
                            content := "session created" |}))
           Examples.plain_request "session created").
  - reflexivity.
  - vm_compute. reflexivity.
Defined.

(* ===================================================================== *)
(** ** Invocations one after the other *)
(* ===================================================================== *)

(** C8: every invocation performs exactly one outbound call, whatever the
    upstream does with it (a failure is not tried again), and nothing is
    kept from one invocation to the next: [n] invocations make [n] calls,
    and each response is the one its own round trip gives. *)
Theorem one_round_trip_per_invocation json_loads m :
  (∀ up request,
     snd (serve_session json_loads m up request) = [session_call (settings m)])
  ∧ (∀ arrivals,
       snd (serve json_loads m arrivals)
       = replicate (length arrivals) (session_call (settings m))
       ∧ length (snd (serve json_loads m arrivals)) = length arrivals
       ∧ fst (serve json_loads m arrivals)
         = map (λ a, fst (serve_session json_loads m a.2 a.1)) arrivals).
Proof.
  split; [intros; apply serve_session_log|].
  intros arrivals. rewrite serve_calls, length_replicate.
  split; [done|]. split; [done|]. apply serve_responses.
Qed.

(** C9: the handler keeps nothing between invocations and reads only the
    configuration: after any history of earlier requests, and whatever the
    caller sends, the response to an invocation is the one a fresh
    invocation gives, and two invocations under the same configuration
    whose upstreams answer alike get identical responses. *)
Theorem stateless_deterministic
    json_loads m before before' request request' up up' :
  up (session_call (settings m)) = up' (session_call (settings m)) →
  last (fst (serve json_loads m (before ++ [(request, up)])))
    = Some (fst (serve_session json_loads m up request))
  ∧ last (fst (serve json_loads m (before ++ [(request, up)])))
    = last (fst (serve json_loads m (before' ++ [(request', up')])))
  ∧ exec up (get_session json_loads m request)
    = exec up' (get_session json_loads m request').
Proof.
  intros Hsame.
  rewrite !serve_responses, !map_app. cbn [map fst snd].
  rewrite !last_snoc.
  split; [done|]. split.
  - f_equal. by apply serve_session_same_answer.
  - unfold get_session.
    destruct (up' (session_call (settings m))) as [resp|e] eqn:Hup'.
    + destruct (decide (status_code resp = 200)) as [Hs|Hs].
      * by rewrite (exec_200 json_loads _ _ _ Hsame Hs),
                   (exec_200 json_loads _ _ _ Hup' Hs).
      * by rewrite (exec_not_200 json_loads _ _ _ Hsame Hs),
                   (exec_not_200 json_loads _ _ _ Hup' Hs).
    + by rewrite (exec_failed json_loads _ _ _ Hsame),
                 (exec_failed json_loads _ _ _ Hup').
Qed.

Lemma stateless_deterministic_witness :
  last (fst (serve JsonText.loads (Examples.globals_with "sk-test")
               ([(Examples.loud_request, Examples.always (Failed NetworkError));
                 (Examples.plain_request, Examples.echoing_upstream)]
                ++ [(Examples.plain_request,
                     Examples.keyed_upstream "sk-test")])))
    = Some (fst (serve_session JsonText.loads
                   (Examples.globals_with "sk-test")
                   (Examples.keyed_upstream "sk-test")
                   Examples.plain_request))
  ∧ last (fst (serve JsonText.loads (Examples.globals_with "sk-test")
                 ([(Examples.loud_request,
                    Examples.always (Failed NetworkError));
                   (Examples.plain_request, Examples.echoing_upstream)]
                  ++ [(Examples.plain_request,
                       Examples.keyed_upstream "sk-test")])))
    = last (fst (serve JsonText.loads (Examples.globals_with "sk-test")
                   ([] ++ [(Examples.loud_request,
                            Examples.always
                              (Responded
                                 {| status_code := 200;
                                    content := Examples.session_body |}))])))
  ∧ exec (Examples.keyed_upstream "sk-test")
      (get_session JsonText.loads (Examples.globals_with "sk-test")
         Examples.plain_request)
    = exec (Examples.always
              (Responded {| status_code := 200;
                            content := Examples.session_body |}))
        (get_session JsonText.loads (Examples.globals_with "sk-test")
           Examples.loud_request).
Proof.
  apply (stateless_deterministic JsonText.loads
           (Examples.globals_with "sk-test")).
  vm_compute. reflexivity.
Defined.


(* ===================================================================== *)
(** ** What an invocation's result says about the upstream *)
(* ===================================================================== *)

(** The handler returns a value only when the upstream answered 200 with a
    body that decodes to that value: a result is never made up locally. *)
Theorem returned_only_from_upstream_200 json_loads m up request j :
  fst (exec up (get_session json_loads m request)) = Returned j →
  ∃ B, up (session_call (settings m))
         = Responded {| status_code := 200; content := B |}
       ∧ json_loads B = Some j.
Proof.
  unfold get_session.
  destruct (up (session_call (settings m))) as [[S B]|e] eqn:Hup.
  - destruct (decide (S = 200)) as [->|HS].
    + rewrite (exec_200 json_loads _ _ _ Hup eq_refl). cbn.
      destruct (json_loads B) as [v|] eqn:HB; [|discriminate].
      intros [= ->]. by exists B.
    + by rewrite (exec_not_200 json_loads _ _ _ Hup HS).
  - by rewrite (exec_failed json_loads _ _ _ Hup).
Qed.

Lemma returned_only_from_upstream_200_witness :
  ∃ B, Examples.keyed_upstream "sk-test"
         (session_call (settings (Examples.globals_with "sk-test")))
         = Responded {| status_code := 200; content := B |}
       ∧ JsonText.loads B
         = Some (JDict [("id", JStr "sess_1"); ("expires_at", JInt 123)]).
Proof.
  apply (returned_only_from_upstream_200 JsonText.loads
           (Examples.globals_with "sk-test")
           (Examples.keyed_upstream "sk-test") Examples.plain_request).
  vm_compute. reflexivity.
Defined.

(** An [HTTPException] raised by the handler always mirrors an answer of the
    upstream: its status code and detail are the upstream's status and text,
    and the status is never 200. *)
Theorem http_exception_mirrors_upstream json_loads m up request S T :
  fst (exec up (get_session json_loads m request))
    = Raised (HTTPException S T) →
  up (session_call (settings m))
    = Responded {| status_code := S; content := T |}
  ∧ S ≠ 200.
Proof.
  unfold get_session.
  destruct (up (session_call (settings m))) as [[S' B]|e] eqn:Hup.
  - destruct (decide (S' = 200)) as [->|HS].
    + rewrite (exec_200 json_loads _ _ _ Hup eq_refl). cbn.
      by destruct (json_loads B).
    + rewrite (exec_not_200 json_loads _ _ _ Hup HS). cbn.
      by intros [= <- <-].
  - by rewrite (exec_failed json_loads _ _ _ Hup).
Qed.

Lemma http_exception_mirrors_upstream_witness :
  Examples.keyed_upstream "sk-test"
    (session_call (settings (Examples.globals_with "sk-stale")))
    = Responded {| status_code := 401; content := Examples.invalid_key_body |}
  ∧ 401 ≠ 200.
Proof.
  apply (http_exception_mirrors_upstream JsonText.loads
           (Examples.globals_with "sk-stale")
           (Examples.keyed_upstream "sk-test") Examples.plain_request).
  vm_compute. reflexivity.
Defined.

(** The two failures that are not an [HTTPException] each have one cause:
    [JSONDecodeError] means the upstream answered 200 with a body that does
    not decode, and a transport failure is the very failure of the call. *)
Theorem other_failures_have_one_cause json_loads m up request :
  (fst (exec up (get_session json_loads m request)) = Raised JSONDecodeError →
   ∃ B, up (session_call (settings m))
          = Responded {| status_code := 200; content := B |}
        ∧ json_loads B = None)
  ∧ (∀ e, fst (exec up (get_session json_loads m request))
            = Raised (TransportFailure e) →
          up (session_call (settings m)) = Failed e).
Proof.
  unfold get_session.
  destruct (up (session_call (settings m))) as [[S B]|e'] eqn:Hup.
  - destruct (decide (S = 200)) as [->|HS].
    + rewrite (exec_200 json_loads _ _ _ Hup eq_refl). cbn.
      destruct (json_loads B) as [v|] eqn:HB; split; try done.
      intros _. by exists B.
    + by rewrite (exec_not_200 json_loads _ _ _ Hup HS).
  - rewrite (exec_failed json_loads _ _ _ Hup). cbn.
    split; [done|]. by intros e [= ->].
Qed.

Lemma other_failures_have_one_cause_witness :
  Examples.slow_upstream 45
    (session_call (settings (Examples.globals_with "sk-test")))
  = Failed TimeoutException.
Proof.
  apply (proj2 (other_failures_have_one_cause JsonText.loads
                  (Examples.globals_with "sk-test")
                  (Examples.slow_upstream 45) Examples.plain_request)
           TimeoutException).
  vm_compute. reflexivity.
Defined.

(* ===================================================================== *)
(** ** What leaves the process *)
(* ===================================================================== *)

(** Nothing of the caller's request is handed to the upstream call:
    whatever two callers send, and whatever the upstream does, the awaited
    [client.post] is given the same arguments; the URL is the fixed
    sessions URL and the [headers=] argument holds exactly the two keys
    [Authorization] and [Content-Type], the latter [application/json]. *)
Theorem outbound_call_ignores_request
    json_loads m up up' request request' :
  snd (serve_session json_loads m up request)
    = snd (serve_session json_loads m up' request')
  ∧ ∃ c, snd (serve_session json_loads m up request) = [c]
         ∧ call_url c = "https://api.openai.com/v1/realtime/sessions"
         ∧ dom (call_headers c)
           = ({[ "Authorization"; "Content-Type" ]} : gset string)
         ∧ call_headers c !! "Content-Type" = Some "application/json".
Proof.
  rewrite !serve_session_log. split; [done|].
  exists (session_call (settings m)). split; [done|]. split; [done|].
  cbn [session_call call_headers]. split.
  - rewrite dom_insert_L, dom_singleton_L. set_solver.
  - rewrite lookup_insert_ne; [apply lookup_singleton_eq|].
    intros H. discriminate H.
Qed.

